(** * Recipe Finder: the agent wrapper of [src/agent.ts]

  A shallow embedding of the launch-parameter builder
  ([buildChromeDevToolsArgs]), the options assembler ([getOptions]) and
  the event relay ([streamAgent]), followed by the properties the
  specification states about them and by further properties of the code. *)

From Stdlib Require Import ZArith.
From stdpp Require Import gmap strings list fin_maps sorting.

Local Open Scope string_scope.
Local Open Scope list_scope.

(** ** Process environment *)

(** [process.env]: a finite map from variable names to string values; a
  variable that is not set reads as [undefined], here [None]. *)
Abbreviation Env := (gmap string string).

(** ** Launch-parameter builder *)

Module Chrome.

Definition baseArgs : list string :=
  [ "-y";
    "chrome-devtools-mcp@latest";
    "--headless";
    "--isolated";
    "--no-category-emulation";
    "--no-category-performance";
    "--no-category-network" ].

(** The tokens of the container branch that follow [...baseArgs]. *)
Definition containerArgs : list string :=
  [ "--executable-path=/usr/bin/chromium";
    "--chrome-arg=--no-sandbox";
    "--chrome-arg=--disable-setuid-sandbox";
    "--chrome-arg=--disable-dev-shm-usage";
    "--chrome-arg=--disable-gpu" ].

(** [process.env.CHROME_PATH === "/usr/bin/chromium"]: strict equality
    of a string-or-undefined with a string. *)
Definition isContainer (env : Env) : bool :=
  bool_decide (env !! "CHROME_PATH" = Some "/usr/bin/chromium").

Definition buildChromeDevToolsArgs (env : Env) : list string :=
  if isContainer env then baseArgs ++ containerArgs else baseArgs.

End Chrome.

(** ** Options assembler *)

Module Agent.

Record McpServerConfig := {
  cfg_type : string;
  command : string;
  args : list string
}.

(** The module-level constant is evaluated once, when the module is
    loaded; [loadEnv] is [process.env] at that moment. *)
Definition CHROME_DEVTOOLS_MCP_CONFIG (loadEnv : Env) : McpServerConfig :=
  {| cfg_type := "stdio";
     command := "npx";
     args := Chrome.buildChromeDevToolsArgs loadEnv |}.

Definition ALLOWED_TOOLS : list string :=
  [ "mcp__chrome-devtools__click";
    "mcp__chrome-devtools__fill";
    "mcp__chrome-devtools__fill_form";
    "mcp__chrome-devtools__hover";
    "mcp__chrome-devtools__press_key";
    "mcp__chrome-devtools__navigate_page";
    "mcp__chrome-devtools__new_page";
    "mcp__chrome-devtools__list_pages";
    "mcp__chrome-devtools__select_page";
    "mcp__chrome-devtools__close_page";
    "mcp__chrome-devtools__wait_for";
    "mcp__chrome-devtools__take_screenshot";
    "mcp__chrome-devtools__take_snapshot" ].

(** The one-character string holding a double quote. *)
Definition dquote : string := String (Ascii.ascii_of_nat 34) EmptyString.

(** The template literal of the source, byte for byte (UTF-8), with the
    escaped backticks of the source read as backticks. *)
Definition SYSTEM_PROMPT : string :=
  "You are a Recipe Finder agent with browser automation capabilities, specialized in searching AllRecipes.com and presenting recipes in a clean, usable format.

## Your Mission
Help users discover recipes from AllRecipes by searching, navigating, and extracting recipe information including ingredients, instructions, cook times, and ratings.

## Step-by-Step Strategy

1. **Navigate to AllRecipes**
   - Use navigate_page to go to https://www.allrecipes.com
   - Wait for the page to load completely

2. **Handle Cookie Banners/Popups**
   - Take a snapshot to check for cookie consent banners or modal dialogs
   - If present, click accept/dismiss buttons to clear them

3. **Search for Recipes**
   - Use take_snapshot to locate the search input field
   - Use fill to enter the user's search query into the search box
   - Use press_key to submit (press " +:+ dquote +:+ "Enter" +:+ dquote +:+ ") or click the search button
   - Wait for search results to load

4. **Browse Search Results**
   - Use take_snapshot to see the search results structure
   - Identify promising recipe cards based on ratings, reviews, and titles
   - Use click to select a recipe that matches the user's request
   - If the first result isn't suitable, inform the user and try another

5. **Extract Recipe Information**
   - Once on a recipe page, use take_snapshot to analyze the page structure
   - Extract the following information:
     * Recipe title
     * Rating (stars/score)
     * Number of reviews
     * Prep time, cook time, total time
     * Servings/yield
     * Ingredients list (with quantities and measurements)
     * Step-by-step instructions
     * Any notes or tips from the author
   - Use take_screenshot if the user wants to see the recipe visually

6. **Handle Multiple Recipes**
   - If the user wants to compare multiple recipes, open them in new tabs using new_page
   - Use list_pages and select_page to switch between recipes
   - Present a comparison of key details

## Error Handling

- **No Results Found**: Suggest alternative search terms or broader queries
- **Page Load Issues**: Retry navigation or wait longer with wait_for
- **Recipe Format Changes**: Adapt by taking snapshots and identifying elements by common patterns
- **Paywalls/Login Requirements**: Inform the user if a recipe requires account access

## Output Format

Present recipes in this clean format:

```
**[Recipe Title]**
‚≠ê Rating: [X.X/5] ([XXX] reviews)

‚è±Ô∏è **Times:**
- Prep: [X minutes]
- Cook: [X minutes]
- Total: [X minutes]
- Servings: [X]

üìù **Ingredients:**
- [quantity] [unit] [ingredient]
- [quantity] [unit] [ingredient]
...

üë®‚Äçüç≥ **Instructions:**
1. [Step one]
2. [Step two]
3. [Step three]
...

üí° **Tips:** [Any helpful notes or tips]
```

## Best Practices

- Always take snapshots before clicking to ensure accurate element targeting
- Be patient with page loads - AllRecipes has ads and dynamic content
- Prioritize highly-rated recipes unless user specifies otherwise
- If extracting ingredients, preserve exact measurements and order
- Offer to find alternative recipes if the first one doesn't meet user needs
- Provide the recipe URL so users can bookmark or share it

## URL Patterns

- Homepage: https://www.allrecipes.com
- Search: https://www.allrecipes.com/search?q=[query]
- Recipe pages: https://www.allrecipes.com/recipe/[id]/[recipe-name]/

Remember: Your goal is to make recipe discovery effortless and present information in a format that's immediately useful for cooking.".

(** The record handed to the agent runtime. [mcpServers] is [None] when
    the object has no such key. *)
Record Options := {
  env : Env;
  systemPrompt : string;
  model : string;
  allowedTools : list string;
  maxTurns : Z;
  mcpServers : option (gmap string McpServerConfig)
}.

(** [getOptions(standalone = false)]. [procEnv] is [process.env] at the
    call, copied by the spread; spreading [false] adds no key, spreading
    the object adds [mcpServers]. *)
Definition getOptions (loadEnv procEnv : Env) (standalone : bool) : Options :=
  {| env := procEnv;
     systemPrompt := SYSTEM_PROMPT;
     model := "haiku";
     allowedTools := ALLOWED_TOOLS;
     maxTurns := 50;
     mcpServers :=
       if standalone
       then Some {[ "chrome-devtools" := CHROME_DEVTOOLS_MCP_CONFIG loadEnv ]}
       else None |}.

End Agent.

(** ** Runtime messages *)

Module Relay.

Unset Elimination Schemes.

(** Arguments of a tool invocation: a JSON value. *)
Inductive Json :=
| JNull
| JBool (b : bool)
| JNum (n : Z)
| JStr (s : string)
| JArr (items : list Json)
| JObj (fields : list (string * Json)).

Set Elimination Schemes.

(** A content block as the relay reads it: the [type] tag and the fields
    [text], [name] and [input], each [None] when the block has no such
    field. *)
Record ContentBlock := {
  block_type : string;
  block_text : option string;
  block_name : option string;
  block_input : option Json
}.

(** [message.usage]; token counters are integers. *)
Record Usage := {
  input_tokens : option Z;
  output_tokens : option Z
}.

(** The inner [message] object of a runtime message. *)
Record ApiMessage := {
  content : option (list ContentBlock);
  usage : option Usage
}.

(** A message of the runtime's stream. [result] is [None] when the key is
    absent, which [in] tests ([undefined] under the key is falsy in the
    conjunction all the same). *)
Record SDKMessage := {
  msg_type : string;
  message : option ApiMessage;
  result : option string
}.

(** The objects the generator yields, by their [type] tag. The name of a
    tool event is [block.name] as read, [None] when it is [undefined]. *)
Inductive RelayEvent :=
| EvText (text : string)
| EvTool (name : option string)
| EvUsage (input output : Z)
| EvResult (text : string)
| EvDone.

#[global] Instance RelayEvent_eq_dec : EqDecision RelayEvent.
Proof. solve_decision. Defined.

(** ** Truthiness *)

(** A string is truthy when it is not empty. *)
Definition truthy_string (s : string) : bool :=
  match s with
  | EmptyString => false
  | String _ _ => true
  end.

(** [v || 0] on an integer-or-undefined. *)
Definition or_zero (v : option Z) : Z :=
  match v with
  | Some n => if Z.eqb n 0 then 0%Z else n
  | None => 0%Z
  end.

(** [message.type === "assistant" && message.message?.content]: the
    block array when the conjunction is truthy (an empty array is). *)
Definition assistant_content (m : SDKMessage) : option (list ContentBlock) :=
  if String.eqb (msg_type m) "assistant"
  then match message m with
       | Some inner => content inner
       | None => None
       end
  else None.

(** ** The body of the loop *)

(** First inner loop: [block.type === "text" && block.text]. *)
Definition yield_text (b : ContentBlock) : list RelayEvent :=
  if String.eqb (block_type b) "text"
  then match block_text b with
       | Some t => if truthy_string t then [EvText t] else []
       | None => []
       end
  else [].

(** Second inner loop: [block.type === "tool_use"]. *)
Definition yield_tool (b : ContentBlock) : list RelayEvent :=
  if String.eqb (block_type b) "tool_use"
  then [EvTool (block_name b)]
  else [].

Definition text_events (m : SDKMessage) : list RelayEvent :=
  match assistant_content m with
  | Some blocks => flat_map yield_text blocks
  | None => []
  end.

Definition tool_events (m : SDKMessage) : list RelayEvent :=
  match assistant_content m with
  | Some blocks => flat_map yield_tool blocks
  | None => []
  end.

(** [message.message?.usage], whatever the message's type. *)
Definition usage_events (m : SDKMessage) : list RelayEvent :=
  match message m with
  | Some inner =>
      match usage inner with
      | Some u => [EvUsage (or_zero (input_tokens u)) (or_zero (output_tokens u))]
      | None => []
      end
  | None => []
  end.

(** ["result" in message && message.result]. *)
Definition result_events (m : SDKMessage) : list RelayEvent :=
  match result m with
  | Some r => if truthy_string r then [EvResult r] else []
  | None => []
  end.

(** Everything one iteration of the [for await] loop yields, in order. *)
Definition relay_message (m : SDKMessage) : list RelayEvent :=
  text_events m ++ tool_events m ++ usage_events m ++ result_events m.

(** The [type] tag of a yielded object. *)
Definition ev_type (ev : RelayEvent) : string :=
  match ev with
  | EvText _ => "text"
  | EvTool _ => "tool"
  | EvUsage _ _ => "usage"
  | EvResult _ => "result"
  | EvDone => "done"
  end.

(** ** Message shapes *)

Definition text_block (t : string) : ContentBlock :=
  {| block_type := "text"; block_text := Some t;
     block_name := None; block_input := None |}.

Definition tool_use_block (name : string) (input : Json) : ContentBlock :=
  {| block_type := "tool_use"; block_text := None;
     block_name := Some name; block_input := Some input |}.

(** An assistant message with a content array. *)
Definition assistant_message (blocks : list ContentBlock) (u : option Usage)
    (r : option string) : SDKMessage :=
  {| msg_type := "assistant";
     message := Some {| content := Some blocks; usage := u |};
     result := r |}.

(** A message that carries usage counters and nothing else. *)
Definition usage_message (ty : string) (u : Usage) : SDKMessage :=
  {| msg_type := ty;
     message := Some {| content := None; usage := Some u |};
     result := None |}.

(** A message that carries a final result and nothing else. *)
Definition result_message (ty : string) (r : string) : SDKMessage :=
  {| msg_type := ty; message := None; result := Some r |}.

(** The blocks the two inner loops run over; none when the guard fails. *)
Definition assistant_blocks (m : SDKMessage) : list ContentBlock :=
  default [] (assistant_content m).

(** The same block with other arguments. *)
Definition set_input (f : ContentBlock → option Json) (b : ContentBlock) : ContentBlock :=
  {| block_type := block_type b; block_text := block_text b;
     block_name := block_name b; block_input := f b |}.

(** Usage counters of which exactly one is absent. *)
Definition one_counter_absent (u : Usage) : Prop :=
  (input_tokens u = None ∧ is_Some (output_tokens u)) ∨
  (is_Some (input_tokens u) ∧ output_tokens u = None).

(** ** Streams *)

(** What an async iterator produces when it is drained: items one by one,
    then either normal completion or a thrown value. *)
Inductive Stream (E A : Type) :=
| Finished
| Raised (err : E)
| Item (a : A) (rest : Stream E A).

Arguments Finished {E A}.
Arguments Raised {E A} err.
Arguments Item {E A} a rest.

(** The items produced, in order. *)
Fixpoint items {E A} (s : Stream E A) : list A :=
  match s with
  | Finished | Raised _ => []
  | Item a rest => a :: items rest
  end.

(** How the stream ends: [None] for normal completion, [Some e] when [e]
    is thrown. *)
Fixpoint outcome {E A} (s : Stream E A) : option E :=
  match s with
  | Finished => None
  | Raised e => Some e
  | Item _ rest => outcome rest
  end.

(** Yield the elements of [l], then go on as [k]. *)
Fixpoint yield_all {E A} (l : list A) (k : Stream E A) : Stream E A :=
  match l with
  | [] => k
  | a :: l' => Item a (yield_all l' k)
  end.

(** The generator over an upstream stream: the loop body for each message,
    an error of the upstream where it occurs, [done] after normal
    completion. *)
Fixpoint relay {E} (upstream : Stream E SDKMessage) : Stream E RelayEvent :=
  match upstream with
  | Finished => Item EvDone Finished
  | Raised e => Raised e
  | Item m rest => yield_all (relay_message m) (relay rest)
  end.

(** [streamAgent(prompt)], with the runtime's [query] given as a function
    of the prompt and the options. *)
Definition streamAgent {E} (query : string -> Agent.Options -> Stream E SDKMessage)
    (loadEnv procEnv : Env) (prompt : string) : Stream E RelayEvent :=
  relay (query prompt (Agent.getOptions loadEnv procEnv true)).

End Relay.

(** ** Inputs of the specification's scenarios *)

Module Scenario.

Import Relay.

(** The environment of a container: the browser path is the container's. *)
Definition container_env : Env := {[ "CHROME_PATH" := "/usr/bin/chromium" ]}.

(** An environment whose browser path is not the container's. *)
Definition desktop_env : Env := {[ "CHROME_PATH" := "/usr/bin/google-chrome" ]}.

(** The four flags that switch sandboxing, shared memory and the GPU off,
    as the specification counts them. *)
Definition sandbox_flags : list string :=
  [ "--chrome-arg=--no-sandbox";
    "--chrome-arg=--disable-setuid-sandbox";
    "--chrome-arg=--disable-dev-shm-usage";
    "--chrome-arg=--disable-gpu" ].

(** The runtime messages of the relay scenario: two text blocks in one
    message, one tool invocation in the next, usage counters 10 and 5,
    then the final result. *)
Definition scenario {E} (t1 t2 tool : string) (input : Json) (ty_usage ty_result : string)
    : Stream E SDKMessage :=
  Item (assistant_message [text_block t1; text_block t2] None None)
    (Item (assistant_message [tool_use_block tool input] None None)
       (Item (usage_message ty_usage
                {| input_tokens := Some 10%Z; output_tokens := Some 5%Z |})
          (Item (result_message ty_result "Found 3 recipes") Finished))).

(** Arguments of a navigation request. *)
Definition navigate : Json := JObj [("url", JStr "https://www.allrecipes.com")].

(** The scenario with concrete texts and a navigation request. *)
Definition sample_stream : Stream string SDKMessage :=
  scenario "Searching AllRecipes" "Here is what I found"
    "mcp__chrome-devtools__navigate_page" navigate "assistant" "result".

(** A stream that fails after its first message. *)
Definition failing_stream : Stream string SDKMessage :=
  Item (assistant_message [text_block "Searching AllRecipes"] None None)
    (Raised "ECONNRESET").

(** Usage counters with the input counter missing. *)
Definition output_only : Usage :=
  {| input_tokens := None; output_tokens := Some 5%Z |}.

Definition output_only_stream {E} : Stream E SDKMessage :=
  Item (usage_message "assistant" output_only) Finished.

(** A runtime that answers every prompt with the same stream. *)
Definition constant_runtime {E} (s : Stream E SDKMessage)
    : string → Agent.Options → Stream E SDKMessage :=
  λ _ _, s.

End Scenario.

(** ** Observations on events and messages *)

Module Observe.

Import Relay.

(** The place of an event's kind in the order of the loop body. *)
Definition kind_rank (ev : RelayEvent) : nat :=
  match ev with
  | EvText _ => 0
  | EvTool _ => 1
  | EvUsage _ _ => 2
  | EvResult _ => 3
  | EvDone => 4
  end.

(** The message has an inner [message] object with a [usage] object. *)
Definition has_usage (m : SDKMessage) : bool :=
  match message m with
  | Some inner => bool_decide (is_Some (usage inner))
  | None => false
  end.

(** The text a consumer assembles from the text events, in order. *)
Fixpoint streamed_text (evs : list RelayEvent) : string :=
  match evs with
  | [] => ""
  | EvText t :: evs' => t +:+ streamed_text evs'
  | _ :: evs' => streamed_text evs'
  end.

(** The text of the text blocks of a content array, in order. *)
Fixpoint block_texts (blocks : list ContentBlock) : string :=
  match blocks with
  | [] => ""
  | b :: blocks' =>
      (if String.eqb (block_type b) "text" then default "" (block_text b) else "")
      +:+ block_texts blocks'
  end.

(** The name under which the runtime offers the operation [op] of the
    tool server [server]. *)
Definition tool_name (server op : string) : string :=
  "mcp__" +:+ server +:+ "__" +:+ op.

(** An environment with more than the browser path in it. *)
Definition container_env_with_home : Env :=
  <[ "HOME" := "/home/node" ]> {[ "CHROME_PATH" := "/usr/bin/chromium" ]}.

(** A user message that carries a text block and a tool-invocation block. *)
Definition user_message_with_blocks : SDKMessage :=
  {| msg_type := "user";
     message :=
       Some {| content := Some [ text_block "pasta carbonara";
                                 tool_use_block "mcp__chrome-devtools__click" JNull ];
               usage := None |};
     result := None |}.

(** A stream with no assistant message: the user's message, then the
    result. *)
Definition stream_without_assistant : Stream string SDKMessage :=
  Item user_message_with_blocks
    (Item (result_message "result" "Found 3 recipes") Finished).

End Observe.

(** * Properties *)

(** ** Launch-parameter builder *)

Section LaunchParameters.

Import Chrome Scenario.

Example build_local : buildChromeDevToolsArgs ∅ = baseArgs.
Proof. reflexivity. Qed.

Example build_container :
  buildChromeDevToolsArgs container_env = baseArgs ++ containerArgs.
Proof. vm_compute. reflexivity. Qed.

Lemma isContainer_true (env : Env) :
  env !! "CHROME_PATH" = Some "/usr/bin/chromium" → isContainer env = true.
Proof. intros H. unfold isContainer. by apply bool_decide_eq_true. Qed.

Lemma isContainer_false (env : Env) :
  env !! "CHROME_PATH" ≠ Some "/usr/bin/chromium" → isContainer env = false.
Proof. intros H. unfold isContainer. by apply bool_decide_eq_false. Qed.

(** C1, as stated, fails: in the container environment the builder appends
    five tokens to the base sequence, so its output is neither the base
    sequence followed by the four sandbox flags nor the base sequence
    followed by any four tokens. *)
Lemma C1_not_four_flags :
  container_env !! "CHROME_PATH" = Some "/usr/bin/chromium" ∧
  buildChromeDevToolsArgs container_env ≠ baseArgs ++ sandbox_flags ∧
  ¬ ∃ extra : list string,
      length extra = 4%nat ∧
      buildChromeDevToolsArgs container_env = baseArgs ++ extra.
Proof.
  split; [reflexivity|]. split.
  - vm_compute. discriminate.
  - intros (extra & Hlen & Heq).
    apply (f_equal length) in Heq.
    rewrite length_app, Hlen in Heq.
    vm_compute in Heq. discriminate.
Qed.

(** C1, amended: when [CHROME_PATH] is the container's path, the output is
    the base sequence, then the explicit executable path, then the four
    sandbox flags in their fixed order: five appended tokens, and no token
    of the output occurs twice. *)
Theorem C1_container_args (env : Env) :
  env !! "CHROME_PATH" = Some "/usr/bin/chromium" →
  buildChromeDevToolsArgs env
    = baseArgs ++ "--executable-path=/usr/bin/chromium" :: sandbox_flags
  ∧ length sandbox_flags = 4%nat
  ∧ length (buildChromeDevToolsArgs env) = (length baseArgs + 5)%nat
  ∧ NoDup (buildChromeDevToolsArgs env).
Proof.
  intros H. unfold buildChromeDevToolsArgs.
  rewrite (isContainer_true _ H).
  repeat split.
  apply (bool_decide_unpack _). vm_compute. exact I.
Qed.

Lemma C1_container_args_witness :
  container_env !! "CHROME_PATH" = Some "/usr/bin/chromium" ∧
  buildChromeDevToolsArgs container_env
    = baseArgs ++ "--executable-path=/usr/bin/chromium" :: sandbox_flags
  ∧ length sandbox_flags = 4%nat
  ∧ length (buildChromeDevToolsArgs container_env) = (length baseArgs + 5)%nat
  ∧ NoDup (buildChromeDevToolsArgs container_env).
Proof.
  split; [reflexivity|].
  apply (C1_container_args container_env). reflexivity.
Defined.

(** C8: when [CHROME_PATH] is unset, or set to anything but the
    container's path, the output is exactly the base sequence. *)
Theorem C8_local_args (env : Env) :
  env !! "CHROME_PATH" ≠ Some "/usr/bin/chromium" →
  buildChromeDevToolsArgs env = baseArgs.
Proof.
  intros H. unfold buildChromeDevToolsArgs.
  by rewrite (isContainer_false _ H).
Qed.

Lemma C8_local_args_witness :
  (∅ : Env) !! "CHROME_PATH" ≠ Some "/usr/bin/chromium" ∧
  desktop_env !! "CHROME_PATH" ≠ Some "/usr/bin/chromium" ∧
  buildChromeDevToolsArgs ∅ = baseArgs ∧
  buildChromeDevToolsArgs desktop_env = baseArgs.
Proof.
  split; [vm_compute; discriminate|].
  split; [vm_compute; discriminate|].
  split.
  - apply (C8_local_args ∅). vm_compute. discriminate.
  - apply (C8_local_args desktop_env). vm_compute. discriminate.
Defined.

End LaunchParameters.

(** ** Options assembler *)

Section OptionsAssembler.

Import Agent.

Variables loadEnv procEnv : Env.

Lemma mcpServers_standalone :
  mcpServers (getOptions loadEnv procEnv true)
    = Some {[ "chrome-devtools" := CHROME_DEVTOOLS_MCP_CONFIG loadEnv ]}.
Proof. reflexivity. Qed.

Lemma mcpServers_embedded :
  mcpServers (getOptions loadEnv procEnv false) = None.
Proof. reflexivity. Qed.

(** C5: the record has the tool-server launch map exactly in standalone
    mode (and then it maps the one server name to the launch
    configuration); every other field is the same in both modes. *)
Theorem C5_mcpServers_iff_standalone :
  (∀ standalone : bool,
     is_Some (mcpServers (getOptions loadEnv procEnv standalone))
     ↔ standalone = true)
  ∧ mcpServers (getOptions loadEnv procEnv true)
      = Some {[ "chrome-devtools" := CHROME_DEVTOOLS_MCP_CONFIG loadEnv ]}
  ∧ env (getOptions loadEnv procEnv true) = env (getOptions loadEnv procEnv false)
  ∧ systemPrompt (getOptions loadEnv procEnv true)
      = systemPrompt (getOptions loadEnv procEnv false)
  ∧ model (getOptions loadEnv procEnv true) = model (getOptions loadEnv procEnv false)
  ∧ allowedTools (getOptions loadEnv procEnv true)
      = allowedTools (getOptions loadEnv procEnv false)
  ∧ maxTurns (getOptions loadEnv procEnv true)
      = maxTurns (getOptions loadEnv procEnv false).
Proof.
  split; [|by repeat split].
  intros [|]; simpl; split; intros H; try done.
Qed.

(** C9: in both modes the turn ceiling of the record is 50. *)
Theorem C9_maxTurns_50 (standalone : bool) :
  maxTurns (getOptions loadEnv procEnv standalone) = 50%Z.
Proof. reflexivity. Qed.

End OptionsAssembler.

(** ** Event relay *)

Section EventRelay.

Import Relay Scenario.

Context {E : Type}.

Implicit Types (upstream : Stream E SDKMessage) (m : SDKMessage)
  (blocks : list ContentBlock) (ev : RelayEvent).

(** *** Streams *)

Lemma items_yield_all {A} (l : list A) (k : Stream E A) :
  items (yield_all l k) = l ++ items k.
Proof. induction l as [|a l IH]; simpl; [done|]. by rewrite IH. Qed.

Lemma outcome_yield_all {A} (l : list A) (k : Stream E A) :
  outcome (yield_all l k) = outcome k.
Proof. induction l as [|a l IH]; simpl; done. Qed.

(** The relay ends the way its upstream ends. *)
Lemma outcome_relay upstream : outcome (relay upstream) = outcome upstream.
Proof.
  induction upstream as [| e | m rest IH]; simpl; [done..|].
  by rewrite outcome_yield_all.
Qed.

(** What the relay yields: the loop body of each message in turn, then
    [done] if the upstream completed. *)
Lemma items_relay upstream :
  items (relay upstream)
    = flat_map relay_message (items upstream)
      ++ match outcome upstream with None => [EvDone] | Some _ => [] end.
Proof.
  induction upstream as [| e | m rest IH]; simpl; [done..|].
  by rewrite items_yield_all, IH, (assoc_L (++)).
Qed.

(** A stream with no items is its ending. *)
Lemma no_items_raised {A} (s : Stream E A) (e : E) :
  items s = [] → outcome s = Some e → s = Raised e.
Proof. destruct s; simpl; congruence. Qed.

(** *** The loop body, by kind of event *)

Lemma text_events_type m : Forall (λ ev, ev_type ev = "text") (text_events m).
Proof.
  unfold text_events. destruct (assistant_content m) as [blocks|]; [|constructor].
  induction blocks as [|b blocks IH]; simpl; [constructor|].
  apply Forall_app; split; [|done].
  unfold yield_text. repeat case_match; repeat constructor.
Qed.

Lemma tool_events_type m : Forall (λ ev, ev_type ev = "tool") (tool_events m).
Proof.
  unfold tool_events. destruct (assistant_content m) as [blocks|]; [|constructor].
  induction blocks as [|b blocks IH]; simpl; [constructor|].
  apply Forall_app; split; [|done].
  unfold yield_tool. case_match; repeat constructor.
Qed.

Lemma usage_events_type m : Forall (λ ev, ev_type ev = "usage") (usage_events m).
Proof. unfold usage_events. repeat case_match; repeat constructor. Qed.

Lemma result_events_type m : Forall (λ ev, ev_type ev = "result") (result_events m).
Proof. unfold result_events. repeat case_match; repeat constructor. Qed.

(** Events of one kind, filtered by kind: all of them or none. *)
Lemma filter_type_Forall (k k' : string) (l : list RelayEvent) :
  Forall (λ ev, ev_type ev = k) l →
  filter (λ ev, ev_type ev = k') l = if decide (k = k') then l else [].
Proof.
  induction 1 as [|ev l Hev _ IH]; [by case_decide|].
  case_decide as Hk.
  - rewrite filter_cons_True by congruence. by rewrite IH.
  - rewrite filter_cons_False by congruence. done.
Qed.

(** Filter the four parts of the loop body of [m] by kind. *)
Ltac filter_parts m :=
  unfold relay_message; rewrite !filter_app;
  rewrite (filter_type_Forall _ _ _ (text_events_type m)),
    (filter_type_Forall _ _ _ (tool_events_type m)),
    (filter_type_Forall _ _ _ (usage_events_type m)),
    (filter_type_Forall _ _ _ (result_events_type m));
  repeat case_decide; try congruence;
  rewrite ?app_nil_r; try reflexivity.

Lemma filter_text_relay_message m :
  filter (λ ev, ev_type ev = "text") (relay_message m) = text_events m.
Proof. filter_parts m. Qed.

Lemma filter_tool_relay_message m :
  filter (λ ev, ev_type ev = "tool") (relay_message m) = tool_events m.
Proof. filter_parts m. Qed.

Lemma filter_usage_relay_message m :
  filter (λ ev, ev_type ev = "usage") (relay_message m) = usage_events m.
Proof. filter_parts m. Qed.

Lemma filter_done_relay_message m :
  filter (λ ev, ev_type ev = "done") (relay_message m) = [].
Proof. filter_parts m. Qed.

(** The loop body never yields [done]. *)
Lemma done_not_in_relay_message m : EvDone ∉ relay_message m.
Proof.
  intros Hin.
  assert (EvDone ∈ filter (λ ev, ev_type ev = "done") (relay_message m)) as H
    by (by apply list_elem_of_filter).
  rewrite filter_done_relay_message in H. by apply elem_of_nil in H.
Qed.

Lemma done_not_in_flat_map (ms : list SDKMessage) :
  EvDone ∉ flat_map relay_message ms.
Proof.
  induction ms as [|m ms IH]; simpl.
  - apply not_elem_of_nil.
  - rewrite elem_of_app. intros [H|H]; [by apply (done_not_in_relay_message m)|done].
Qed.

(** What a message yields is part of what the relay yields. *)
Lemma relay_message_in_relay upstream m ev :
  m ∈ items upstream → ev ∈ relay_message m → ev ∈ items (relay upstream).
Proof.
  intros Hm Hev. rewrite items_relay, elem_of_app. left.
  apply list_elem_of_In, in_flat_map. exists m.
  by rewrite <- !list_elem_of_In.
Qed.

(** The events of one kind, over the whole output: those of each message
    in turn. *)
Lemma filter_type_items_relay (k : string) (part : SDKMessage → list RelayEvent) upstream :
  k ≠ "done" →
  (∀ m, filter (λ ev, ev_type ev = k) (relay_message m) = part m) →
  filter (λ ev, ev_type ev = k) (items (relay upstream))
    = flat_map part (items upstream).
Proof.
  intros Hk Hpart. rewrite items_relay, filter_app.
  assert (filter (λ ev, ev_type ev = k)
            match outcome upstream with None => [EvDone] | Some _ => [] end = [])
    as -> by (destruct (outcome upstream); [done|];
              rewrite filter_cons_False; [done|simpl; congruence]).
  rewrite app_nil_r.
  induction (items upstream) as [|m ms IH]; simpl; [done|].
  by rewrite filter_app, Hpart, IH.
Qed.

Lemma flat_map_assistant_blocks (f : ContentBlock → list RelayEvent)
    (ms : list SDKMessage) :
  flat_map (λ m, flat_map f (assistant_blocks m)) ms
    = flat_map f (flat_map assistant_blocks ms).
Proof.
  induction ms as [|m ms IH]; simpl; [done|].
  by rewrite flat_map_app, IH.
Qed.

Lemma text_events_blocks m : text_events m = flat_map yield_text (assistant_blocks m).
Proof. unfold text_events, assistant_blocks. by destruct (assistant_content m). Qed.

Lemma tool_events_blocks m : tool_events m = flat_map yield_tool (assistant_blocks m).
Proof. unfold tool_events, assistant_blocks. by destruct (assistant_content m). Qed.

(** The guard of the two inner loops, spelled out. *)
Lemma assistant_content_Some m blocks :
  assistant_content m = Some blocks ↔
  msg_type m = "assistant" ∧
  ∃ inner, message m = Some inner ∧ content inner = Some blocks.
Proof.
  unfold assistant_content. destruct (String.eqb_spec (msg_type m) "assistant") as [Hty|Hty].
  - destruct (message m) as [inner|]; split.
    + intros H. split; [done|]. by exists inner.
    + intros (_ & inner' & [= <-] & H). done.
    + done.
    + intros (_ & inner' & [=] & _).
  - split; [done|]. intros [? _]. done.
Qed.

Lemma truthy_string_nonempty (t : string) : truthy_string t = true ↔ t ≠ "".
Proof. destruct t; simpl; split; done. Qed.

(** A block yields a text event exactly when it is a text block whose
    text is not empty. *)
Lemma elem_of_yield_text b ev :
  ev ∈ yield_text b ↔
  ∃ t, ev = EvText t ∧ block_type b = "text" ∧ block_text b = Some t ∧ t ≠ "".
Proof.
  unfold yield_text.
  destruct (String.eqb_spec (block_type b) "text") as [Hty|Hty].
  - destruct (block_text b) as [t|].
    + destruct (truthy_string t) eqn:Ht.
      * rewrite list_elem_of_singleton. split.
        -- intros ->. exists t. by rewrite <- truthy_string_nonempty.
        -- by intros (t' & -> & _ & [= <-] & _).
      * split; [by intros ?%elem_of_nil|].
        intros (t' & _ & _ & [= <-] & Hne).
        apply truthy_string_nonempty in Hne. congruence.
    + split; [by intros ?%elem_of_nil|]. by intros (t' & _ & _ & [=] & _).
  - split; [by intros ?%elem_of_nil|]. by intros (t' & _ & ? & _).
Qed.

Lemma flat_map_yield_tool blocks :
  flat_map yield_tool blocks
    = (λ b, EvTool (block_name b))
        <$> filter (λ b, block_type b = "tool_use") blocks.
Proof.
  induction blocks as [|b blocks IH]; simpl; [done|].
  rewrite IH. unfold yield_tool.
  destruct (String.eqb_spec (block_type b) "tool_use") as [Hty|Hty].
  - by rewrite filter_cons_True.
  - by rewrite filter_cons_False.
Qed.

Lemma elem_of_flat_map {A B} (f : A → list B) (l : list A) (y : B) :
  y ∈ flat_map f l ↔ ∃ x, x ∈ l ∧ y ∈ f x.
Proof.
  rewrite list_elem_of_In, in_flat_map.
  split; intros (x & Hx & Hy); exists x; split; by apply list_elem_of_In.
Qed.

(** A text event of a message comes from one of its text blocks. *)
Lemma text_in_relay_message m (t : string) :
  EvText t ∈ relay_message m → EvText t ∈ flat_map yield_text (assistant_blocks m).
Proof.
  unfold relay_message. rewrite !elem_of_app, text_events_blocks.
  intros [H|[H|[H|H]]]; [done|exfalso..].
  - by apply (proj1 (Forall_forall _ _) (tool_events_type m)) in H.
  - by apply (proj1 (Forall_forall _ _) (usage_events_type m)) in H.
  - by apply (proj1 (Forall_forall _ _) (result_events_type m)) in H.
Qed.

Lemma or_zero_default (v : option Z) : or_zero v = default 0%Z v.
Proof.
  destruct v as [n|]; simpl; [|done].
  by destruct (Z.eqb_spec n 0) as [->|].
Qed.

Lemma filter_eq_absent (ev : RelayEvent) (l : list RelayEvent) :
  ev ∉ l → filter (λ ev', ev' = ev) l = [].
Proof.
  induction l as [|x l IH]; intros Hnin; [done|].
  apply not_elem_of_cons in Hnin as [Hne Hnin].
  rewrite filter_cons_False; [by apply IH|congruence].
Qed.

End EventRelay.

(** ** The relay over the runtime's stream *)

Section StreamAgent.

Import Relay Scenario.

Context {E : Type}.
Variable query : string → Agent.Options → Stream E SDKMessage.
Variables loadEnv procEnv : Env.
Variable prompt : string.

(** The stream the runtime returns for the prompt under the standalone
    options, and what the relay makes of it. *)
Local Abbreviation upstream := (query prompt (Agent.getOptions loadEnv procEnv true)).
Local Abbreviation output := (streamAgent query loadEnv procEnv prompt).

(** C2: for the scenario of the specification (two text blocks in one
    message, one tool invocation in the next, usage counters 10 and 5,
    the result string), the relay yields text, text, tool, usage(10,5),
    result, done and nothing else, and completes. The two texts are not
    empty. *)
Theorem C2_scenario_events (t1 t2 tool : string) (input : Json)
    (ty_usage ty_result : string) :
  t1 ≠ "" → t2 ≠ "" →
  upstream = scenario t1 t2 tool input ty_usage ty_result →
  output = yield_all [ EvText t1; EvText t2; EvTool (Some tool);
                       EvUsage 10 5; EvResult "Found 3 recipes"; EvDone ]
             Finished.
Proof.
  intros H1 H2 Hup. unfold streamAgent. rewrite Hup.
  destruct t1 as [|c1 t1]; [done|]. destruct t2 as [|c2 t2]; [done|].
  unfold scenario, usage_message, result_message. simpl.
  unfold relay_message, text_events, tool_events, usage_events, result_events,
    assistant_content; simpl.
  by destruct (String.eqb ty_usage "assistant"), (String.eqb ty_result "assistant").
Qed.

(** C3: when the runtime's stream ends in an error, the relay ends in the
    same error, has yielded what the messages before it give and no
    [done]; when the error comes before any message, the relay is the
    error alone. *)
Theorem C3_error_propagates (e : E) :
  outcome upstream = Some e →
  outcome output = Some e
  ∧ (EvDone ∉ items output)
  ∧ items output = flat_map relay_message (items upstream)
  ∧ (items upstream = [] → output = Raised e).
Proof.
  intros He. unfold streamAgent.
  assert (items (relay upstream) = flat_map relay_message (items upstream)) as Hitems
    by (by rewrite items_relay, He, app_nil_r).
  split; [by rewrite outcome_relay|].
  split; [rewrite Hitems; apply done_not_in_flat_map|].
  split; [done|].
  intros Hnil. apply no_items_raised.
  - by rewrite Hitems, Hnil.
  - by rewrite outcome_relay.
Qed.

(** C4: when the runtime's stream completes, whatever its messages, the
    relay yields [done] exactly once, as its last event, and completes. *)
Theorem C4_done_once_and_last :
  outcome upstream = None →
  items output = flat_map relay_message (items upstream) ++ [EvDone]
  ∧ last (items output) = Some EvDone
  ∧ length (filter (λ ev, ev = EvDone) (items output)) = 1%nat
  ∧ outcome output = None.
Proof.
  intros Hok. unfold streamAgent.
  assert (items (relay upstream) = flat_map relay_message (items upstream) ++ [EvDone])
    as Hitems by (by rewrite items_relay, Hok).
  rewrite Hitems. split; [done|].
  split; [apply last_snoc|].
  split; [|by rewrite outcome_relay].
  rewrite filter_app, filter_eq_absent by apply done_not_in_flat_map.
  done.
Qed.

(** C6: a message whose usage counters lack exactly one of the two fields
    yields one usage event, with zero in the place of the missing counter
    and the other counter as the message carries it ([default 0 v] is [0]
    for [None] and [n] for [Some n]). *)
Theorem C6_missing_counter_is_zero (m : SDKMessage) (inner : ApiMessage) (u : Usage) :
  m ∈ items upstream →
  message m = Some inner → usage inner = Some u →
  one_counter_absent u →
  filter (λ ev, ev_type ev = "usage") (relay_message m)
    = [EvUsage (default 0%Z (input_tokens u)) (default 0%Z (output_tokens u))]
  ∧ EvUsage (default 0%Z (input_tokens u)) (default 0%Z (output_tokens u))
      ∈ items output.
Proof.
  intros Hm Hinner Hu _.
  assert (usage_events m
            = [EvUsage (default 0%Z (input_tokens u)) (default 0%Z (output_tokens u))])
    as Hev by (unfold usage_events; by rewrite Hinner, Hu, !or_zero_default).
  split; [by rewrite filter_usage_relay_message|].
  apply (relay_message_in_relay _ m); [done|].
  unfold relay_message. rewrite Hev, !elem_of_app.
  right; right; left. apply list_elem_of_singleton. done.
Qed.

(** C7: the tool events of the output are the tool-invocation blocks of
    the assistant messages, one event per block in the order of the
    blocks, each with the block's name; what a message yields does not
    depend on the arguments of its blocks. *)
Theorem C7_tool_events_names_only :
  filter (λ ev, ev_type ev = "tool") (items output)
    = (λ b, EvTool (block_name b))
        <$> filter (λ b, block_type b = "tool_use")
              (flat_map assistant_blocks (items upstream))
  ∧ (∀ blocks u r,
       filter (λ ev, ev_type ev = "tool") (relay_message (assistant_message blocks u r))
         = (λ b, EvTool (block_name b))
             <$> filter (λ b, block_type b = "tool_use") blocks)
  ∧ (∀ (f : ContentBlock → option Json) blocks u r,
       relay_message (assistant_message (set_input f <$> blocks) u r)
         = relay_message (assistant_message blocks u r)).
Proof.
  split; [|split].
  - unfold streamAgent.
    rewrite (filter_type_items_relay "tool" tool_events) by
      (done || apply filter_tool_relay_message).
    rewrite <- flat_map_yield_tool, <- flat_map_assistant_blocks.
    apply flat_map_ext. intros m. apply tool_events_blocks.
  - intros blocks u r. rewrite filter_tool_relay_message.
    unfold tool_events. simpl. apply flat_map_yield_tool.
  - intros f blocks u r. unfold relay_message.
    assert (text_events (assistant_message (set_input f <$> blocks) u r)
              = text_events (assistant_message blocks u r)) as ->.
    { unfold text_events; simpl.
      induction blocks as [|b blocks IH]; [done|].
      rewrite fmap_cons. simpl. by rewrite IH. }
    assert (tool_events (assistant_message (set_input f <$> blocks) u r)
              = tool_events (assistant_message blocks u r)) as ->.
    { unfold tool_events; simpl.
      induction blocks as [|b blocks IH]; [done|].
      rewrite fmap_cons. simpl. by rewrite IH. }
    done.
Qed.

(** C10: a text block with empty text yields no event, and taking it out
    of a message changes nothing of what the message yields; every text
    event of the output carries the non-empty text of a text block of an
    assistant message, and every such block has its text event. *)
Theorem C10_no_text_event_for_empty_text :
  (∀ b, block_type b = "text" → block_text b = Some "" →
     yield_text b = []
     ∧ ∀ pre post u r,
         relay_message (assistant_message (pre ++ b :: post) u r)
           = relay_message (assistant_message (pre ++ post) u r))
  ∧ (∀ t, EvText t ∈ items output →
       t ≠ "" ∧
       ∃ m b, m ∈ items upstream ∧ msg_type m = "assistant"
              ∧ b ∈ assistant_blocks m
              ∧ block_type b = "text" ∧ block_text b = Some t)
  ∧ (∀ m b t, m ∈ items upstream → b ∈ assistant_blocks m →
       block_type b = "text" → block_text b = Some t → t ≠ "" →
       EvText t ∈ items output).
Proof.
  split; [|split].
  - intros b Hty Htext.
    assert (yield_text b = []) as Hnone
      by (unfold yield_text; by rewrite Hty, Htext).
    assert (yield_tool b = []) as Hnotool
      by (unfold yield_tool; by rewrite Hty).
    split; [done|]. intros pre post u r.
    unfold relay_message, text_events, tool_events. simpl.
    rewrite !flat_map_app. simpl. by rewrite Hnone, Hnotool.
  - intros t Hin. unfold streamAgent in Hin.
    rewrite items_relay, elem_of_app in Hin.
    destruct Hin as [Hin|Hin].
    + apply elem_of_flat_map in Hin as (m & Hm & Hev).
      apply text_in_relay_message, elem_of_flat_map in Hev as (b & Hb & Hev).
      apply elem_of_yield_text in Hev as (t' & [= <-] & Hty & Htext & Hne).
      split; [done|]. exists m, b. repeat split; try done.
      unfold assistant_blocks, assistant_content in Hb.
      destruct (String.eqb_spec (msg_type m) "assistant"); [done|].
      by apply elem_of_nil in Hb.
    + destruct (outcome upstream).
      * by apply elem_of_nil in Hin.
      * by apply list_elem_of_singleton in Hin.
  - intros m b t Hm Hb Hty Htext Hne. unfold streamAgent.
    apply (relay_message_in_relay _ m); [done|].
    unfold relay_message. rewrite elem_of_app. left.
    rewrite text_events_blocks. apply elem_of_flat_map. exists b.
    split; [done|]. apply elem_of_yield_text. by exists t.
Qed.

End StreamAgent.

(** ** The theorems at concrete inputs *)

Import Relay Scenario.

Lemma C2_scenario_events_witness :
  "Searching AllRecipes" ≠ "" ∧ "Here is what I found" ≠ "" ∧
  streamAgent (constant_runtime sample_stream) ∅ ∅ "pasta carbonara"
  = yield_all [ EvText "Searching AllRecipes"; EvText "Here is what I found";
                EvTool (Some "mcp__chrome-devtools__navigate_page");
                EvUsage 10 5; EvResult "Found 3 recipes"; EvDone ]
      Finished.
Proof.
  split; [done|]. split; [done|].
  apply (C2_scenario_events (constant_runtime sample_stream)
           ∅ ∅ "pasta carbonara" _ _ _ navigate "assistant" "result");
    [done|done|reflexivity].
Defined.

Lemma C3_error_propagates_witness :
  (outcome (constant_runtime (Raised "ECONNRESET") "pasta carbonara"
              (Agent.getOptions ∅ ∅ true)) = Some "ECONNRESET"
   ∧ streamAgent (constant_runtime (Raised "ECONNRESET")) ∅ ∅ "pasta carbonara"
     = Raised "ECONNRESET")
  ∧ (outcome (constant_runtime failing_stream "pasta carbonara"
                (Agent.getOptions ∅ ∅ true)) = Some "ECONNRESET"
     ∧ outcome (streamAgent (constant_runtime failing_stream) ∅ ∅ "pasta carbonara")
       = Some "ECONNRESET"
     ∧ (EvDone ∉ items (streamAgent (constant_runtime failing_stream)
                          ∅ ∅ "pasta carbonara"))).
Proof.
  split.
  - split; [reflexivity|].
    apply (C3_error_propagates (constant_runtime (Raised "ECONNRESET"))
             ∅ ∅ "pasta carbonara" "ECONNRESET"); reflexivity.
  - split; [reflexivity|].
    destruct (C3_error_propagates (constant_runtime failing_stream)
                ∅ ∅ "pasta carbonara" "ECONNRESET") as (Hout & Hdone & _);
      [reflexivity|].
    split; [exact Hout|exact Hdone].
Defined.

Lemma C4_done_once_and_last_witness :
  outcome (constant_runtime sample_stream "pasta carbonara"
             (Agent.getOptions ∅ ∅ true)) = None
  ∧ items (streamAgent (constant_runtime sample_stream) ∅ ∅ "pasta carbonara")
    = flat_map relay_message (items sample_stream) ++ [EvDone]
  ∧ last (items (streamAgent (constant_runtime sample_stream) ∅ ∅ "pasta carbonara"))
    = Some EvDone
  ∧ length (filter (λ ev, ev = EvDone)
              (items (streamAgent (constant_runtime sample_stream)
                        ∅ ∅ "pasta carbonara"))) = 1%nat
  ∧ outcome (streamAgent (constant_runtime sample_stream) ∅ ∅ "pasta carbonara")
    = None.
Proof.
  split; [reflexivity|].
  apply (C4_done_once_and_last (constant_runtime sample_stream)
           ∅ ∅ "pasta carbonara").
  reflexivity.
Defined.

Lemma C6_missing_counter_is_zero_witness :
  one_counter_absent output_only ∧
  filter (λ ev, ev_type ev = "usage")
    (relay_message (usage_message "assistant" output_only)) = [EvUsage 0 5] ∧
  EvUsage 0 5
    ∈ items (streamAgent (constant_runtime (E:=string) output_only_stream)
               ∅ ∅ "pasta carbonara").
Proof.
  assert (one_counter_absent output_only) as Habs
    by (left; split; [done|by eexists]).
  split; [exact Habs|].
  apply (C6_missing_counter_is_zero
           (constant_runtime (E:=string) output_only_stream)
           ∅ ∅ "pasta carbonara"
           (usage_message "assistant" output_only)
           {| content := None; usage := Some output_only |}
           output_only);
    [apply list_elem_of_here|reflexivity|reflexivity|exact Habs].
Defined.

(** ** The relay on small inputs *)

Example relay_failing_stream :
  relay failing_stream = Item (EvText "Searching AllRecipes") (Raised "ECONNRESET").
Proof. reflexivity. Qed.

(** Within one message the text events come first, whatever the order of
    the blocks. *)
Example relay_message_texts_before_tools :
  relay_message
    (assistant_message
       [ tool_use_block "mcp__chrome-devtools__click" JNull;
         text_block "";
         text_block "Clicked the first recipe" ] None None)
  = [ EvText "Clicked the first recipe"; EvTool (Some "mcp__chrome-devtools__click") ].
Proof. reflexivity. Qed.

(** The guard on the message type: the blocks of a message that is not an
    assistant message yield nothing. *)
Example relay_message_user :
  relay_message
    {| msg_type := "user";
       message := Some {| content := Some [text_block "pasta carbonara"];
                          usage := None |};
       result := None |}
  = [].
Proof. reflexivity. Qed.

Example relay_message_empty_result : relay_message (result_message "result" "") = [].
Proof. reflexivity. Qed.

Example usage_events_zero_counter :
  usage_events
    (usage_message "assistant" {| input_tokens := Some 0%Z; output_tokens := None |})
  = [EvUsage 0 0].
Proof. reflexivity. Qed.

(** * Further properties of the code *)

(** ** The launch parameters in every environment *)

Section LaunchInvariants.

Import Chrome Agent Scenario Observe.

Lemma NoDup_all_args : NoDup (baseArgs ++ containerArgs).
Proof. apply (bool_decide_unpack _). vm_compute. exact I. Qed.

(** No token of the container branch is a base token. *)
Lemma containerArgs_not_base (flag : string) :
  flag ∈ containerArgs → flag ∉ baseArgs.
Proof.
  intros Hc Hb.
  destruct (proj1 (NoDup_app _ _) NoDup_all_args) as (_ & Hdisj & _).
  by apply (Hdisj flag).
Qed.

(** X1: in every environment the command line of the tool server starts
    with [npx -y chrome-devtools-mcp@latest] and the other base flags:
    the base sequence is a prefix of the builder's output, and the
    configuration runs [npx] over stdio with that output. *)
Theorem X1_command_line_prefix (loadEnv : Env) :
  baseArgs `prefix_of` buildChromeDevToolsArgs loadEnv
  ∧ "npx" :: baseArgs
      `prefix_of` command (CHROME_DEVTOOLS_MCP_CONFIG loadEnv)
                  :: args (CHROME_DEVTOOLS_MCP_CONFIG loadEnv)
  ∧ cfg_type (CHROME_DEVTOOLS_MCP_CONFIG loadEnv) = "stdio".
Proof.
  assert (baseArgs `prefix_of` buildChromeDevToolsArgs loadEnv) as Hpre.
  { unfold buildChromeDevToolsArgs. destruct (isContainer loadEnv).
    - by apply prefix_app_r.
    - done. }
  split; [done|]. split; [|done].
  simpl. by apply prefix_cons.
Qed.

(** X2: the builder reads nothing of the environment but [CHROME_PATH]:
    two environments that agree on it get the same arguments. *)
Theorem X2_only_CHROME_PATH_matters (env1 env2 : Env) :
  env1 !! "CHROME_PATH" = env2 !! "CHROME_PATH" →
  buildChromeDevToolsArgs env1 = buildChromeDevToolsArgs env2.
Proof.
  intros H. unfold buildChromeDevToolsArgs, isContainer. by rewrite H.
Qed.

Lemma X2_only_CHROME_PATH_matters_witness :
  container_env_with_home !! "CHROME_PATH" = container_env !! "CHROME_PATH"
  ∧ container_env_with_home ≠ container_env
  ∧ buildChromeDevToolsArgs container_env_with_home
    = buildChromeDevToolsArgs container_env.
Proof.
  split; [reflexivity|]. split.
  - intros Heq. apply (f_equal (λ e : Env, e !! "HOME")) in Heq.
    vm_compute in Heq. discriminate.
  - apply (X2_only_CHROME_PATH_matters container_env_with_home container_env).
    reflexivity.
Defined.

(** X3: each token of the container branch (the executable path and the
    four sandbox flags) is in the output exactly when [CHROME_PATH] is the
    container's path; they come all together or not at all. *)
Theorem X3_container_flags_iff (env : Env) (flag : string) :
  flag ∈ containerArgs →
  (flag ∈ buildChromeDevToolsArgs env
   ↔ env !! "CHROME_PATH" = Some "/usr/bin/chromium").
Proof.
  intros Hflag. unfold buildChromeDevToolsArgs, isContainer.
  case_bool_decide as Hpath.
  - split; [done|]. intros _. apply elem_of_app. by right.
  - split; [|done]. intros Hin. by apply containerArgs_not_base in Hin.
Qed.

Lemma X3_container_flags_iff_witness :
  "--chrome-arg=--no-sandbox" ∈ containerArgs
  ∧ ("--chrome-arg=--no-sandbox" ∈ buildChromeDevToolsArgs desktop_env
     ↔ desktop_env !! "CHROME_PATH" = Some "/usr/bin/chromium")
  ∧ "--chrome-arg=--no-sandbox" ∉ buildChromeDevToolsArgs desktop_env.
Proof.
  assert ("--chrome-arg=--no-sandbox" ∈ containerArgs) as Hflag
    by (apply (bool_decide_unpack _); vm_compute; exact I).
  split; [exact Hflag|].
  pose proof (X3_container_flags_iff desktop_env "--chrome-arg=--no-sandbox" Hflag)
    as Hiff.
  split; [exact Hiff|].
  intros Hin. apply Hiff in Hin. vm_compute in Hin. discriminate.
Defined.

(** X4: the standalone options carry the arguments built from the
    environment at module load: the tool server of the options is started
    without sandbox exactly when [CHROME_PATH] was the container's path
    then, whatever the environment is at the call, which only fills the
    [env] field. *)
Theorem X4_standalone_args_from_load_env (loadEnv procEnv : Env) :
  ∃ servers cfg,
    mcpServers (getOptions loadEnv procEnv true) = Some servers
    ∧ servers !! "chrome-devtools" = Some cfg
    ∧ (∀ name, name ≠ "chrome-devtools" → servers !! name = None)
    ∧ args cfg = buildChromeDevToolsArgs loadEnv
    ∧ ("--chrome-arg=--no-sandbox" ∈ args cfg
       ↔ loadEnv !! "CHROME_PATH" = Some "/usr/bin/chromium")
    ∧ env (getOptions loadEnv procEnv true) = procEnv.
Proof.
  exists {[ "chrome-devtools" := CHROME_DEVTOOLS_MCP_CONFIG loadEnv ]},
    (CHROME_DEVTOOLS_MCP_CONFIG loadEnv).
  split; [done|]. split; [apply lookup_singleton_eq|].
  split; [intros name Hne; by apply lookup_singleton_ne|].
  split; [done|]. split; [|done].
  simpl. unfold buildChromeDevToolsArgs, isContainer.
  case_bool_decide as Hpath.
  - split; [done|]. intros _. apply elem_of_app. right.
    apply (bool_decide_unpack _). vm_compute. exact I.
  - split; [|done]. intros Hin. exfalso.
    revert Hin. apply containerArgs_not_base.
    apply (bool_decide_unpack _). vm_compute. exact I.
Qed.

(** X5: every operation the options allow is an operation of the one tool
    server the standalone options start: its name is the runtime's name
    for an operation of a server of the launch map. *)
Theorem X5_allowed_tools_of_the_server (loadEnv procEnv : Env) (tool : string) :
  tool ∈ allowedTools (getOptions loadEnv procEnv true) →
  ∃ servers server op,
    mcpServers (getOptions loadEnv procEnv true) = Some servers
    ∧ is_Some (servers !! server)
    ∧ tool = tool_name server op.
Proof.
  intros Hin.
  exists {[ "chrome-devtools" := CHROME_DEVTOOLS_MCP_CONFIG loadEnv ]}, "chrome-devtools".
  simpl in Hin. unfold ALLOWED_TOOLS in Hin.
  assert (∃ op, tool = tool_name "chrome-devtools" op) as [op Hop].
  { repeat (apply elem_of_cons in Hin as [->|Hin]; [eexists; reflexivity|]).
    by apply elem_of_nil in Hin. }
  exists op. split; [done|]. split; [|done].
  rewrite lookup_singleton_eq. by eexists.
Qed.

Lemma X5_allowed_tools_of_the_server_witness :
  "mcp__chrome-devtools__take_snapshot" ∈ allowedTools (getOptions ∅ ∅ true)
  ∧ ∃ servers server op,
      mcpServers (getOptions ∅ ∅ true) = Some servers
      ∧ is_Some (servers !! server)
      ∧ "mcp__chrome-devtools__take_snapshot" = tool_name server op.
Proof.
  assert ("mcp__chrome-devtools__take_snapshot" ∈ allowedTools (getOptions ∅ ∅ true))
    as Hin by (apply (bool_decide_unpack _); vm_compute; exact I).
  split; [exact Hin|].
  exact (X5_allowed_tools_of_the_server ∅ ∅ "mcp__chrome-devtools__take_snapshot" Hin).
Defined.

End LaunchInvariants.

(** ** The relay, message by message *)

Section RelayInvariants.

Import Relay Scenario Observe.

Local Open Scope nat_scope.

Context {E : Type}.

Implicit Types (upstream rest : Stream E SDKMessage) (m : SDKMessage)
  (ms : list SDKMessage) (blocks : list ContentBlock) (ev : RelayEvent).

Lemma yield_all_app {A} (l1 l2 : list A) (k : Stream E A) :
  yield_all (l1 ++ l2) k = yield_all l1 (yield_all l2 k).
Proof. induction l1 as [|a l1 IH]; simpl; [done|]. by rewrite IH. Qed.

(** X6: the relay works message by message and keeps no state: on a
    stream that starts with the messages [ms] it yields what each of them
    gives, in order, and then goes on as the relay of the rest. What has
    been yielded for the first messages does not depend on what follows,
    be it more messages, the end or an error. *)
Theorem X6_relay_message_by_message ms rest :
  relay (yield_all ms rest) = yield_all (flat_map relay_message ms) (relay rest)
  ∧ flat_map relay_message ms `prefix_of` items (relay (yield_all ms rest)).
Proof.
  assert (relay (yield_all ms rest)
            = yield_all (flat_map relay_message ms) (relay rest)) as Heq.
  { induction ms as [|m ms IH]; simpl; [done|].
    by rewrite yield_all_app, IH. }
  split; [done|].
  rewrite Heq, items_yield_all. by apply prefix_app_r.
Qed.

(** *** The order of the kinds within a message *)

Lemma type_rank (k : string) (n : nat) (l : list RelayEvent) :
  (∀ ev, ev_type ev = k → kind_rank ev = n) →
  Forall (λ ev, ev_type ev = k) l → Forall (λ ev, kind_rank ev = n) l.
Proof. intros Hk Hl. eapply Forall_impl; [exact Hl|exact Hk]. Qed.

Lemma text_events_rank m : Forall (λ ev, kind_rank ev = 0) (text_events m).
Proof. apply (type_rank "text"), text_events_type. by intros []. Qed.

Lemma tool_events_rank m : Forall (λ ev, kind_rank ev = 1) (tool_events m).
Proof. apply (type_rank "tool"), tool_events_type. by intros []. Qed.

Lemma usage_events_rank m : Forall (λ ev, kind_rank ev = 2) (usage_events m).
Proof. apply (type_rank "usage"), usage_events_type. by intros []. Qed.

Lemma result_events_rank m : Forall (λ ev, kind_rank ev = 3) (result_events m).
Proof. apply (type_rank "result"), result_events_type. by intros []. Qed.

Lemma same_rank_sorted (n : nat) (l : list RelayEvent) :
  Forall (λ ev, kind_rank ev = n) l →
  StronglySorted (λ ev1 ev2, kind_rank ev1 ≤ kind_rank ev2) l.
Proof.
  induction 1 as [|ev l Hev Hl IH]; constructor; [done|].
  eapply Forall_impl; [exact Hl|]. simpl. intros ev' Hev'. lia.
Qed.

Lemma ranks_sorted_app (n : nat) (l1 l2 : list RelayEvent) :
  Forall (λ ev, kind_rank ev = n) l1 →
  Forall (λ ev, n ≤ kind_rank ev) l2 →
  StronglySorted (λ ev1 ev2, kind_rank ev1 ≤ kind_rank ev2) l2 →
  StronglySorted (λ ev1 ev2, kind_rank ev1 ≤ kind_rank ev2) (l1 ++ l2).
Proof.
  intros H1 H2 Hs. apply StronglySorted_app_2; [|by eapply same_rank_sorted|done].
  intros x1 x2 Hx1 Hx2.
  rewrite Forall_forall in H1. rewrite Forall_forall in H2.
  rewrite (H1 x1 Hx1). by apply H2.
Qed.

Lemma relay_message_sorted m :
  StronglySorted (λ ev1 ev2, kind_rank ev1 ≤ kind_rank ev2) (relay_message m).
Proof.
  pose proof (text_events_rank m) as Ht. pose proof (tool_events_rank m) as Hl.
  pose proof (usage_events_rank m) as Hu. pose proof (result_events_rank m) as Hr.
  unfold relay_message.
  apply (ranks_sorted_app 0); [done| |].
  { rewrite !Forall_app. repeat split; (eapply Forall_impl; [eassumption|]);
      simpl; intros; lia. }
  apply (ranks_sorted_app 1); [done| |].
  { rewrite !Forall_app. repeat split; (eapply Forall_impl; [eassumption|]);
      simpl; intros; lia. }
  apply (ranks_sorted_app 2); [done| |].
  { eapply Forall_impl; [eassumption|]. simpl; intros; lia. }
  by eapply same_rank_sorted.
Qed.

(** X7: within what one message yields, the kinds come in the order text,
    tool, usage, result, whatever the order of the blocks in the message:
    an event never comes before an event of an earlier kind. In
    particular no tool event precedes a text event of the same message. *)
Theorem X7_kinds_in_order m (pre mid post : list RelayEvent) (ev1 ev2 : RelayEvent) :
  relay_message m = pre ++ ev1 :: mid ++ ev2 :: post →
  kind_rank ev1 ≤ kind_rank ev2.
Proof.
  intros Heq. pose proof (relay_message_sorted m) as Hs.
  rewrite Heq in Hs.
  apply StronglySorted_app in Hs as (_ & _ & Hs).
  apply StronglySorted_cons in Hs as [Hall _].
  rewrite Forall_forall in Hall. apply Hall.
  apply elem_of_app. right. apply list_elem_of_here.
Qed.

(** *** How many events *)

Lemma length_yield_block (b : ContentBlock) :
  length (yield_text b) + length (yield_tool b) ≤ 1.
Proof.
  unfold yield_text, yield_tool.
  destruct (String.eqb_spec (block_type b) "text") as [Hty|Hty].
  - rewrite Hty. simpl. repeat case_match; simpl; lia.
  - case_match; simpl; lia.
Qed.

Lemma length_yield_blocks blocks :
  length (flat_map yield_text blocks) + length (flat_map yield_tool blocks)
    ≤ length blocks.
Proof.
  induction blocks as [|b blocks IH]; simpl; [lia|].
  rewrite !length_app. pose proof (length_yield_block b). lia.
Qed.

Lemma length_usage_events m : length (usage_events m) ≤ 1.
Proof. unfold usage_events. repeat case_match; simpl; lia. Qed.

Lemma length_result_events m : length (result_events m) ≤ 1.
Proof. unfold result_events. repeat case_match; simpl; lia. Qed.

Lemma length_relay_message m :
  length (relay_message m) ≤ length (assistant_blocks m) + 2.
Proof.
  unfold relay_message. rewrite !length_app, text_events_blocks, tool_events_blocks.
  pose proof (length_yield_blocks (assistant_blocks m)).
  pose proof (length_usage_events m). pose proof (length_result_events m). lia.
Qed.

(** X8: the relay yields at most one event per content block (a block is
    never both a text and a tool event), at most one usage and one result
    event per message, and one [done]: the number of events is bounded by
    the blocks of the assistant messages, twice the number of messages,
    and one. *)
Theorem X8_event_count_bound upstream :
  (∀ m, length (relay_message m) ≤ length (assistant_blocks m) + 2)
  ∧ length (items (relay upstream))
      ≤ length (flat_map assistant_blocks (items upstream))
        + 2 * length (items upstream) + 1.
Proof.
  split; [apply length_relay_message|].
  rewrite items_relay, length_app.
  assert (length match outcome upstream with None => [EvDone] | Some _ => [] end ≤ 1)
    by (destruct (outcome upstream); simpl; lia).
  assert (length (flat_map relay_message (items upstream))
            ≤ length (flat_map assistant_blocks (items upstream))
              + 2 * length (items upstream)) as Hsum.
  { induction (items upstream) as [|m ms IH]; simpl; [lia|].
    rewrite !length_app. pose proof (length_relay_message m). lia. }
  lia.
Qed.

(** *** The guard on the message type *)

Lemma not_assistant_no_blocks m : msg_type m ≠ "assistant" → assistant_blocks m = [].
Proof.
  intros Hty. unfold assistant_blocks, assistant_content.
  by destruct (String.eqb_spec (msg_type m) "assistant").
Qed.

(** An event of the output is [done] or comes from a message. *)
Lemma elem_of_items_relay upstream ev :
  ev ∈ items (relay upstream) →
  ev = EvDone ∨ ∃ m, m ∈ items upstream ∧ ev ∈ relay_message m.
Proof.
  rewrite items_relay, elem_of_app. intros [Hin|Hin].
  - right. by apply elem_of_flat_map in Hin.
  - left. destruct (outcome upstream).
    + by apply elem_of_nil in Hin.
    + by apply list_elem_of_singleton in Hin.
Qed.

(** X9: the content blocks of a message whose type is not [assistant] are
    not relayed: a stream without assistant messages gives no text and no
    tool event, whatever blocks its messages carry. *)
Theorem X9_only_assistant_blocks_relayed upstream ev :
  Forall (λ m, msg_type m ≠ "assistant") (items upstream) →
  ev ∈ items (relay upstream) →
  ev_type ev ≠ "text" ∧ ev_type ev ≠ "tool".
Proof.
  intros Hall Hin.
  apply elem_of_items_relay in Hin as [->|(m & Hm & Hev)]; [done|].
  rewrite Forall_forall in Hall. specialize (Hall m Hm).
  unfold relay_message in Hev.
  rewrite text_events_blocks, tool_events_blocks,
    (not_assistant_no_blocks m Hall) in Hev.
  simpl in Hev. apply elem_of_app in Hev as [Hev|Hev].
  - apply (proj1 (Forall_forall _ _) (usage_events_type m)) in Hev.
    rewrite Hev. done.
  - apply (proj1 (Forall_forall _ _) (result_events_type m)) in Hev.
    rewrite Hev. done.
Qed.

(** *** The final result *)

Lemma elem_of_result_events m (r : string) :
  EvResult r ∈ relay_message m ↔ result m = Some r ∧ r ≠ "".
Proof.
  unfold relay_message. rewrite !elem_of_app. split.
  - intros [H|[H|[H|H]]].
    + by apply (proj1 (Forall_forall _ _) (text_events_type m)) in H.
    + by apply (proj1 (Forall_forall _ _) (tool_events_type m)) in H.
    + by apply (proj1 (Forall_forall _ _) (usage_events_type m)) in H.
    + unfold result_events in H. destruct (result m) as [r'|].
      * destruct (truthy_string r') eqn:Hr.
        -- apply list_elem_of_singleton in H as [= <-].
           split; [done|]. by apply truthy_string_nonempty.
        -- by apply elem_of_nil in H.
      * by apply elem_of_nil in H.
  - intros [Hres Hne]. right; right; right.
    unfold result_events. rewrite Hres.
    apply truthy_string_nonempty in Hne. rewrite Hne.
    apply list_elem_of_here.
Qed.

(** X10: a result event with text [r] is in the output exactly when some
    message of the stream has the result [r] and [r] is not empty: an
    empty result string is dropped, and no result is made up. *)
Theorem X10_result_iff_nonempty upstream (r : string) :
  EvResult r ∈ items (relay upstream)
  ↔ ∃ m, m ∈ items upstream ∧ result m = Some r ∧ r ≠ "".
Proof.
  split.
  - intros Hin. apply elem_of_items_relay in Hin as [?|(m & Hm & Hev)]; [done|].
    exists m. split; [done|]. by apply elem_of_result_events.
  - intros (m & Hm & Hres). apply (relay_message_in_relay _ m); [done|].
    by apply elem_of_result_events.
Qed.

(** *** The text, put together again *)

Lemma append_nil_r (s : string) : s +:+ "" = s.
Proof.
  induction s as [|c s IH]; [done|].
  change (String c (s +:+ "") = String c s). by rewrite IH.
Qed.

Lemma append_assoc (s1 s2 s3 : string) : (s1 +:+ s2) +:+ s3 = s1 +:+ (s2 +:+ s3).
Proof.
  induction s1 as [|c s1 IH]; [done|].
  change (String c ((s1 +:+ s2) +:+ s3) = String c (s1 +:+ (s2 +:+ s3))).
  by rewrite IH.
Qed.

Lemma streamed_text_app (l1 l2 : list RelayEvent) :
  streamed_text (l1 ++ l2) = streamed_text l1 +:+ streamed_text l2.
Proof.
  induction l1 as [|ev l1 IH]; simpl; [done|].
  destruct ev; try done. by rewrite IH, append_assoc.
Qed.

Lemma streamed_text_no_text (l : list RelayEvent) :
  Forall (λ ev, ev_type ev ≠ "text") l → streamed_text l = "".
Proof.
  induction 1 as [|ev l Hev _ IH]; simpl; [done|].
  by destruct ev.
Qed.

Lemma streamed_text_yield_text blocks :
  streamed_text (flat_map yield_text blocks) = block_texts blocks.
Proof.
  induction blocks as [|b blocks IH]; simpl; [done|].
  rewrite streamed_text_app, IH. f_equal.
  unfold yield_text. destruct (String.eqb (block_type b) "text"); [|done].
  destruct (block_text b) as [t|]; [|done].
  destruct (truthy_string t) eqn:Ht.
  - apply append_nil_r.
  - by destruct t.
Qed.

Lemma block_texts_app (l1 l2 : list ContentBlock) :
  block_texts (l1 ++ l2) = block_texts l1 +:+ block_texts l2.
Proof.
  induction l1 as [|b l1 IH]; simpl; [done|].
  by rewrite IH, append_assoc.
Qed.

Lemma streamed_text_relay_message m :
  streamed_text (relay_message m) = block_texts (assistant_blocks m).
Proof.
  unfold relay_message. rewrite !streamed_text_app.
  rewrite (streamed_text_no_text (tool_events m)),
    (streamed_text_no_text (usage_events m)),
    (streamed_text_no_text (result_events m)).
  - simpl. by rewrite append_nil_r, text_events_blocks, streamed_text_yield_text.
  - eapply Forall_impl; [apply result_events_type|]. by intros ev ->.
  - eapply Forall_impl; [apply usage_events_type|]. by intros ev ->.
  - eapply Forall_impl; [apply tool_events_type|]. by intros ev ->.
Qed.

(** X11: dropping the empty text blocks loses no text: the texts of the
    text events of the output, put together in order, are the texts of the
    text blocks of the assistant messages, put together in order. *)
Theorem X11_streamed_text_complete upstream :
  streamed_text (items (relay upstream))
    = block_texts (flat_map assistant_blocks (items upstream)).
Proof.
  rewrite items_relay, streamed_text_app.
  assert (streamed_text match outcome upstream with None => [EvDone] | Some _ => [] end
            = "") as -> by (by destruct (outcome upstream)).
  rewrite append_nil_r.
  induction (items upstream) as [|m ms IH]; simpl; [done|].
  by rewrite streamed_text_app, block_texts_app, IH, streamed_text_relay_message.
Qed.

(** *** Usage events *)

Lemma length_usage_events_has_usage m :
  length (usage_events m) = if has_usage m then 1 else 0.
Proof.
  unfold usage_events, has_usage. destruct (message m) as [inner|]; [|done].
  by destruct (usage inner) as [u|].
Qed.

(** X12: the output has one usage event for each message that has a usage
    object, whatever the type of the message and whichever counters the
    object holds, and none besides. *)
Theorem X12_one_usage_event_per_usage upstream :
  length (filter (λ ev, ev_type ev = "usage") (items (relay upstream)))
    = length (filter (λ m, has_usage m = true) (items upstream)).
Proof.
  rewrite (filter_type_items_relay "usage" usage_events) by
    (done || apply filter_usage_relay_message).
  induction (items upstream) as [|m ms IH]; simpl; [done|].
  rewrite length_app, IH, length_usage_events_has_usage.
  destruct (has_usage m) eqn:Hu.
  - by rewrite filter_cons_True.
  - rewrite filter_cons_False; [done|]. by rewrite Hu.
Qed.

End RelayInvariants.

(** ** The further properties at concrete inputs *)

Lemma X7_kinds_in_order_witness :
  relay_message
    (assistant_message
       [ tool_use_block "mcp__chrome-devtools__click" JNull;
         text_block "Clicked the first recipe" ] None None)
  = [] ++ EvText "Clicked the first recipe"
       :: [] ++ EvTool (Some "mcp__chrome-devtools__click") :: []
  ∧ (Observe.kind_rank (EvText "Clicked the first recipe")
     ≤ Observe.kind_rank (EvTool (Some "mcp__chrome-devtools__click")))%nat.
Proof.
  split; [reflexivity|].
  apply (X7_kinds_in_order
           (assistant_message
              [ tool_use_block "mcp__chrome-devtools__click" JNull;
                text_block "Clicked the first recipe" ] None None)
           [] [] []).
  reflexivity.
Defined.

Lemma X9_only_assistant_blocks_relayed_witness :
  Forall (λ m, msg_type m ≠ "assistant") (items Observe.stream_without_assistant)
  ∧ items (relay Observe.stream_without_assistant)
    = [EvResult "Found 3 recipes"; EvDone]
  ∧ ev_type (EvResult "Found 3 recipes") ≠ "text"
  ∧ ev_type (EvResult "Found 3 recipes") ≠ "tool".
Proof.
  assert (Forall (λ m, msg_type m ≠ "assistant")
            (items Observe.stream_without_assistant))
    as Hall by (repeat constructor; discriminate).
  split; [exact Hall|]. split; [reflexivity|].
  apply (X9_only_assistant_blocks_relayed Observe.stream_without_assistant
           (EvResult "Found 3 recipes") Hall).
  vm_compute. apply list_elem_of_here.
Defined.
